(** * flutter_splendid_ble, Windows plugin shim

    A shallow embedding of [windows/flutter_splendid_ble_plugin.cpp],
    [windows/flutter_splendid_ble_plugin.h] and
    [windows/flutter_splendid_ble_plugin_c_api.cpp], and the properties of
    the method-call router and of the registration path. *)

From Stdlib Require Import String Ascii ZArith List Lia.
From stdpp Require Import base option gmap strings list.

Set Warnings "-register-all".

Local Open Scope string_scope.

(** ** The framework types the plugin is written against *)

Module Flutter.

(** [flutter::EncodableValue]: the variant carried by the standard codec.
    Integers are kept as [Z], a double as its IEEE-754 bit pattern. *)
Inductive EncodableValue : Type :=
| EvNull
| EvBool (b : bool)
| EvInt32 (n : Z)
| EvInt64 (n : Z)
| EvDouble (bits : Z)
| EvString (s : string)
| EvUint8List (bytes : list ascii)
| EvList (items : list EncodableValue)
| EvMap (entries : list (EncodableValue * EncodableValue)).

(** [flutter::MethodCall<EncodableValue>]: the name and the owned, possibly
    null, argument pointer. *)
Record MethodCall : Type := mkMethodCall {
  method_name : string;
  arguments : option EncodableValue
}.

(** What a [flutter::MethodResult<EncodableValue>] can be told: the three
    public members [Success], [Error] and [NotImplemented]. *)
Inductive Reply : Type :=
| ReplySuccess (value : EncodableValue)
| ReplyError (code message : string) (details : option EncodableValue)
| ReplyNotImplemented.

(** Codecs shipped with the C++ client wrapper. *)
Inductive MethodCodec : Type :=
| StandardMethodCodec
| JsonMethodCodec.

(** Calls that would leave the process. *)
Inductive Outbound : Type :=
| NetworkCall (what : string)
| FilesystemCall (what : string)
| BluetoothCall (what : string).

(** How a C++ call can end other than by returning. *)
Inductive Fault : Type :=
| Exception (what : string)
| UnresolvedName (qualified : list string)
| BadPointer (address : nat).

Inductive Outcome (A : Type) : Type :=
| Returned (a : A)
| Failed (f : Fault).
Arguments Returned {A} a.
Arguments Failed {A} f.

(** Code running over a state [St] that may fail. *)
Definition Eff (St A : Type) : Type := St -> Outcome A * St.

Definition eff_ret {St A} (a : A) : Eff St A := fun s => (Returned a, s).

Definition eff_bind {St A B} (m : Eff St A) (k : A -> Eff St B) : Eff St B :=
  fun s =>
    match m s with
    | (Returned a, s') => k a s'
    | (Failed f, s') => (Failed f, s')
    end.

Definition eff_fail {St A} (f : Fault) : Eff St A := fun s => (Failed f, s).

End Flutter.

Export Flutter.

Declare Scope eff_scope.
Delimit Scope eff_scope with eff.
Notation "x <- m ;; k" := (eff_bind m (fun x => k))
  (at level 100, m at next level, right associativity) : eff_scope.
Notation "m ;;; k" := (eff_bind m (fun _ => k))
  (at level 100, right associativity) : eff_scope.

(** ** The plugin class *)

Module flutter_splendid_ble.

(** [class FlutterSplendidBlePlugin : public flutter::Plugin] declares no
    data member. *)
Record FlutterSplendidBlePlugin : Type := mkPlugin { }.

(** What a running member function can touch: the object it is called on,
    the result object it was handed, and the outside world. *)
Record Frame : Type := mkFrame {
  this_plugin : FlutterSplendidBlePlugin;
  result_sink : list Reply;
  outbound : list Outbound
}.

Definition deliver (r : Reply) : Eff Frame unit :=
  fun fr =>
    (Returned tt,
     {| this_plugin := this_plugin fr;
        result_sink := result_sink fr ++ [r];
        outbound := outbound fr |}).

(** [result->Success(v)], [result->Error(c, m, d)] and
    [result->NotImplemented()]. *)
Definition Success (v : EncodableValue) : Eff Frame unit :=
  deliver (ReplySuccess v).
Definition Error (code message : string) (details : option EncodableValue)
  : Eff Frame unit :=
  deliver (ReplyError code message details).
Definition NotImplemented : Eff Frame unit :=
  deliver ReplyNotImplemented.

(** [FlutterSplendidBlePlugin::HandleMethodCall]
    (flutter_splendid_ble_plugin.cpp, lines 81-104). [==] between a
    [std::string] and a literal is exact, byte for byte. *)
Definition HandleMethodCall (method_call : MethodCall) : Eff Frame unit :=
  let method_name := method_call.(method_name) in
  if String.eqb method_name "startScan" then
    Success (EvString "startScan called")
  else if String.eqb method_name "stopScan" then
    Success (EvString "stopScan called")
  else if String.eqb method_name "connect" then
    Success (EvString "connect called")
  else if String.eqb method_name "disconnect" then
    Success (EvString "disconnect called")
  else
    NotImplemented.

(** *** Registration *)

(** The lambda handed to [SetMethodCallHandler] (lines 63-67) captures
    [plugin_pointer] and nothing else; the channel adds its codec. *)
Record MethodCallHandler : Type := mkHandler {
  handler_codec : MethodCodec;
  plugin_pointer : nat
}.

(** [flutter::MethodChannel<EncodableValue>]: the messenger it talks to
    (named by the registrar it belongs to), its name and its codec. *)
Record MethodChannel : Type := mkChannel {
  channel_messenger : nat;
  channel_name : string;
  channel_codec : MethodCodec
}.

(** [flutter::PluginRegistrarWindows]: the handlers set on its messenger,
    by channel name, and the [std::set] of plugins it owns. *)
Record PluginRegistrarWindows : Type := mkRegistrar {
  messenger : gmap string MethodCallHandler;
  plugins : gset nat
}.

(** The process: live plugin objects by address, the registrar wrappers
    of [flutter::PluginRegistrarManager] by registrar reference, and the
    calls that left the process. *)
Record Host : Type := mkHost {
  objects : gmap nat FlutterSplendidBlePlugin;
  registrars : gmap nat PluginRegistrarWindows;
  host_outbound : list Outbound
}.

Definition empty_registrar : PluginRegistrarWindows :=
  {| messenger := ∅; plugins := ∅ |}.

(** [PluginRegistrarManager::GetInstance()->GetRegistrar<...>(ref)]: the
    wrapper of [ref], made on first use. *)
Definition GetRegistrar (registrar : nat) : Eff Host nat :=
  fun h =>
    match registrars h !! registrar with
    | Some _ => (Returned registrar, h)
    | None =>
        (Returned registrar,
         {| objects := objects h;
            registrars := <[registrar := empty_registrar]> (registrars h);
            host_outbound := host_outbound h |})
    end.

(** [std::make_unique<flutter::MethodChannel<...>>(registrar->messenger(),
    name, codec)]; dereferences [registrar]. *)
Definition make_unique_MethodChannel (registrar : nat) (name : string)
           (codec : MethodCodec) : Eff Host MethodChannel :=
  fun h =>
    match registrars h !! registrar with
    | Some _ =>
        (Returned {| channel_messenger := registrar;
                     channel_name := name;
                     channel_codec := codec |}, h)
    | None => (Failed (BadPointer registrar), h)
    end.

(** [std::make_unique<FlutterSplendidBlePlugin>()]: a new object at an
    address not in use; the constructor body is empty. *)
Definition make_unique_FlutterSplendidBlePlugin : Eff Host nat :=
  fun h =>
    let address := fresh (dom (objects h)) in
    (Returned address,
     {| objects := <[address := mkPlugin]> (objects h);
        registrars := registrars h;
        host_outbound := host_outbound h |}).

(** [channel->SetMethodCallHandler(lambda)]: the messenger keeps one
    handler per channel name, the last one set. *)
Definition SetMethodCallHandler (channel : MethodChannel) (captured : nat)
  : Eff Host unit :=
  fun h =>
    match registrars h !! channel_messenger channel with
    | Some reg =>
        (Returned tt,
         {| objects := objects h;
            registrars :=
              <[channel_messenger channel :=
                  {| messenger :=
                       <[channel_name channel :=
                           {| handler_codec := channel_codec channel;
                              plugin_pointer := captured |}]> (messenger reg);
                     plugins := plugins reg |}]> (registrars h);
            host_outbound := host_outbound h |})
    | None => (Failed (BadPointer (channel_messenger channel)), h)
    end.

(** [registrar->AddPlugin(std::move(plugin))]: the registrar becomes the
    owner; the moved-from local is null and frees nothing at scope exit. *)
Definition AddPlugin (registrar : nat) (plugin : nat) : Eff Host unit :=
  fun h =>
    match registrars h !! registrar with
    | Some reg =>
        (Returned tt,
         {| objects := objects h;
            registrars :=
              <[registrar :=
                  {| messenger := messenger reg;
                     plugins := {[plugin]} ∪ plugins reg |}]> (registrars h);
            host_outbound := host_outbound h |})
    | None => (Failed (BadPointer registrar), h)
    end.

(** [FlutterSplendidBlePlugin::RegisterWithRegistrar]
    (flutter_splendid_ble_plugin.cpp, lines 51-71). *)
Definition RegisterWithRegistrar (registrar : nat) : Eff Host unit :=
  (channel <- make_unique_MethodChannel registrar
                "flutter_splendid_ble_plugin" StandardMethodCodec ;;
   plugin <- make_unique_FlutterSplendidBlePlugin ;;
   SetMethodCallHandler channel plugin ;;;
   AddPlugin registrar plugin)%eff.

(** The body of the lambda of lines 63-67:
    [plugin_pointer->HandleMethodCall(call, std::move(result))], run on a
    result object nothing was delivered to yet; what was delivered to it
    is returned. *)
Definition method_call_handler (handler : MethodCallHandler)
           (call : MethodCall) : Eff Host (list Reply) :=
  fun h =>
    match objects h !! plugin_pointer handler with
    | None => (Failed (BadPointer (plugin_pointer handler)), h)
    | Some this =>
        let '(out, fr) :=
          HandleMethodCall call
            {| this_plugin := this;
               result_sink := [];
               outbound := host_outbound h |} in
        let h' :=
          {| objects := <[plugin_pointer handler := this_plugin fr]> (objects h);
             registrars := registrars h;
             host_outbound := outbound fr |} in
        match out with
        | Returned _ => (Returned (result_sink fr), h')
        | Failed f => (Failed f, h')
        end
    end.

(** A run of invocations handled one after the other by the same
    handler. *)
Fixpoint handle_all (handler : MethodCallHandler) (calls : list MethodCall)
  : Eff Host (list (list Reply)) :=
  match calls with
  | [] => eff_ret []
  | call :: rest =>
      (replies <- method_call_handler handler call ;;
       more <- handle_all handler rest ;;
       eff_ret (replies :: more))%eff
  end.

End flutter_splendid_ble.

Export flutter_splendid_ble.

(** ** The C entry points *)

(** The functions a qualified name can denote, as the sources declare them:
    the class lives in [namespace flutter_splendid_ble]
    (flutter_splendid_ble_plugin.cpp line 16, flutter_splendid_ble_plugin.h
    line 9). *)
Definition declared_functions : list (list string * (nat -> Eff Host unit)) :=
  [ (["flutter_splendid_ble"; "FlutterSplendidBlePlugin"; "RegisterWithRegistrar"],
     flutter_splendid_ble.RegisterWithRegistrar) ].

Fixpoint lookup_name {A : Type} (qualified : list string)
         (table : list (list string * A)) : option A :=
  match table with
  | [] => None
  | (name, f) :: rest =>
      if decide (qualified = name) then Some f else lookup_name qualified rest
  end.

(** What a qualified call denotes; a name nothing declares denotes
    nothing. *)
Definition resolve (qualified : list string) : Eff Host (nat -> Eff Host unit) :=
  match lookup_name qualified declared_functions with
  | Some f => eff_ret f
  | None => eff_fail (UnresolvedName qualified)
  end.

(** [FlutterSplendidBlePluginRegisterWithRegistrar]
    (flutter_splendid_ble_plugin.cpp, lines 110-115). *)
Definition FlutterSplendidBlePluginRegisterWithRegistrar (registrar : nat)
  : Eff Host unit :=
  (callee <- resolve ["flutter_splendid_ble_plugin"; "FlutterSplendidBlePlugin";
                      "RegisterWithRegistrar"] ;;
   windows_registrar <- GetRegistrar registrar ;;
   callee windows_registrar)%eff.

(** [FlutterSplendidBlePluginCApiRegisterWithRegistrar]
    (flutter_splendid_ble_plugin_c_api.cpp, lines 7-12). *)
Definition FlutterSplendidBlePluginCApiRegisterWithRegistrar (registrar : nat)
  : Eff Host unit :=
  (callee <- resolve ["flutter_splendid_ble"; "FlutterSplendidBlePlugin";
                      "RegisterWithRegistrar"] ;;
   windows_registrar <- GetRegistrar registrar ;;
   callee windows_registrar)%eff.

(** ** The dispatch as the design notes describe it *)

Module TableDispatch.

Inductive MethodTag : Type :=
| StartScan
| StopScan
| Connect
| Disconnect
| Unknown.

(** The lookup table from method name to tag. *)
Definition method_table : gmap string MethodTag :=
  list_to_map
    [ ("startScan", StartScan); ("stopScan", StopScan);
      ("connect", Connect); ("disconnect", Disconnect) ].

(** The total classification: a name the table lacks is [Unknown]. *)
Definition classify (name : string) : MethodTag :=
  default Unknown (method_table !! name).

(** One handler per tag, by closed pattern match. *)
Definition handler_of (tag : MethodTag) : Eff Frame unit :=
  match tag with
  | StartScan => Success (EvString "startScan called")
  | StopScan => Success (EvString "stopScan called")
  | Connect => Success (EvString "connect called")
  | Disconnect => Success (EvString "disconnect called")
  | Unknown => NotImplemented
  end.

Definition dispatch (method_call : MethodCall) : Eff Frame unit :=
  handler_of (classify (method_name method_call)).

End TableDispatch.

(** ** Vocabulary of the properties *)

(** The names the router answers. *)
Definition recognized_names : list string :=
  ["startScan"; "stopScan"; "connect"; "disconnect"].

(** [needle] occurs somewhere inside [hay]. *)
Definition contains (needle hay : string) : Prop :=
  exists pre post, hay = pre +:+ needle +:+ post.

(** The frame [fr] after exactly one more reply [r] reached the result
    object, nothing else having changed. *)
Definition replied_once (fr : Frame) (r : Reply) : Frame :=
  {| this_plugin := this_plugin fr;
     result_sink := result_sink fr ++ [r];
     outbound := outbound fr |}.

Definition is_success (r : Reply) : bool :=
  match r with ReplySuccess _ => true | _ => false end.

Definition is_error (r : Reply) : bool :=
  match r with ReplyError _ _ _ => true | _ => false end.

(** The handlers set on the messenger of registrar [r]; a registrar that
    was never wrapped has none. *)
Definition handlers_of (h : Host) (r : nat) : gmap string MethodCallHandler :=
  messenger (default empty_registrar (registrars h !! r)).

(** The plugins registrar [r] owns. *)
Definition owned_by (h : Host) (r : nat) : gset nat :=
  plugins (default empty_registrar (registrars h !! r)).

(** The handler [RegisterWithRegistrar] sets: standard codec, and the
    plugin made by this registration. *)
Definition bound_handler (plugin : nat) : MethodCallHandler :=
  {| handler_codec := StandardMethodCodec; plugin_pointer := plugin |}.

(** The process after one registration on a registrar that held [reg]. *)
Definition registered (registrar : nat) (reg : PluginRegistrarWindows)
           (h : Host) : Host :=
  let plugin := fresh (dom (objects h)) in
  {| objects := <[plugin := mkPlugin]> (objects h);
     registrars :=
       <[registrar :=
           {| messenger :=
                <["flutter_splendid_ble_plugin" := bound_handler plugin]>
                  (messenger reg);
              plugins := {[plugin]} ∪ plugins reg |}]> (registrars h);
     host_outbound := host_outbound h |}.

(** A process in which nothing was registered yet. *)
Definition initial_host : Host :=
  {| objects := ∅; registrars := ∅; host_outbound := [] |}.

Definition initial_frame : Frame :=
  {| this_plugin := mkPlugin; result_sink := []; outbound := [] |}.

(** A process with one live plugin at address 0 and an earlier outbound
    call on record. *)
Definition serving_host : Host :=
  {| objects := {[0 := mkPlugin]};
     registrars := ∅;
     host_outbound := [BluetoothCall "adapter state"] |}.

(** A process whose registrar 7 is wrapped and holds nothing yet. *)
Definition wrapped_host : Host :=
  {| objects := ∅;
     registrars := {[7 := empty_registrar]};
     host_outbound := [] |}.

(** Names close to a recognized one, and two that are not. *)
Definition near_misses : list string :=
  [ EmptyString; "StartScan"; "startscan"; "STOPSCAN"; "Connect"; "DISCONNECT";
    " startScan"; "stopScan "; "con nect"; "disconnect" +:+ String "010" EmptyString;
    "readCharacteristic"; "startScan called" ].

(** ** Runs of registrations *)

(** The host loading the plugin on each registrar reference of [refs] in
    turn, through the exported entry point. *)
Fixpoint register_all (refs : list nat) : Eff Host unit :=
  match refs with
  | [] => eff_ret tt
  | registrar :: rest =>
      (FlutterSplendidBlePluginCApiRegisterWithRegistrar registrar ;;;
       register_all rest)%eff
  end.

(** The process after one registration on [registrar], wrapped or not. *)
Definition register_step (registrar : nat) (h : Host) : Host :=
  registered registrar (default empty_registrar (registrars h !! registrar)) h.

(** The process after the registrations of [refs], first to last. *)
Definition after_registrations (refs : list nat) (h : Host) : Host :=
  fold_left (fun h' registrar => register_step registrar h') refs h.

(** Every handler on a messenger captures a plugin its registrar owns. *)
Definition handlers_owned (h : Host) : Prop :=
  forall r name handler,
    handlers_of h r !! name = Some handler ->
    plugin_pointer handler ∈ owned_by h r.

(** Every owned plugin is a live object. *)
Definition owned_alive (h : Host) : Prop :=
  forall r plugin, plugin ∈ owned_by h r -> is_Some (objects h !! plugin).

(** No plugin has two owners. *)
Definition owned_once (h : Host) : Prop :=
  forall r r' plugin,
    plugin ∈ owned_by h r -> plugin ∈ owned_by h r' -> r = r'.

Definition consistent (h : Host) : Prop :=
  handlers_owned h /\ owned_alive h /\ owned_once h.

(** ** The router *)

Section Router.

Implicit Types (name : string) (args : option EncodableValue)
         (call : MethodCall) (fr : Frame) (reply : Reply).

Lemma recognized_names_spec name :
  In name recognized_names <->
  name = "startScan" \/ name = "stopScan" \/
  name = "connect" \/ name = "disconnect".
Proof.
  unfold recognized_names; simpl. intuition congruence.
Qed.

Lemma recognized_dec name :
  {In name recognized_names} + {~ In name recognized_names}.
Proof. apply in_dec, string_dec. Qed.

(** The two outcomes of the if/else chain, read off the code once. *)
Lemma HandleMethodCall_recognized name args fr :
  In name recognized_names ->
  HandleMethodCall (mkMethodCall name args) fr =
  (Returned tt, replied_once fr (ReplySuccess (EvString (name +:+ " called")))).
Proof.
  intros H. apply recognized_names_spec in H.
  destruct H as [-> | [-> | [-> | ->]]]; reflexivity.
Qed.

Lemma HandleMethodCall_unrecognized name args fr :
  ~ In name recognized_names ->
  HandleMethodCall (mkMethodCall name args) fr =
  (Returned tt, replied_once fr ReplyNotImplemented).
Proof.
  intros H. rewrite recognized_names_spec in H.
  unfold HandleMethodCall; simpl.
  destruct (String.eqb_spec name "startScan"); [tauto |].
  destruct (String.eqb_spec name "stopScan"); [tauto |].
  destruct (String.eqb_spec name "connect"); [tauto |].
  destruct (String.eqb_spec name "disconnect"); [tauto |].
  reflexivity.
Qed.

Lemma near_misses_unrecognized :
  Forall (fun name => ~ In name recognized_names) near_misses.
Proof.
  unfold near_misses.
  repeat (apply List.Forall_cons;
          [rewrite recognized_names_spec; intuition discriminate |]).
  apply List.Forall_nil.
Qed.

(** C1. For each of the four recognized method names and whatever the
    arguments, [HandleMethodCall] returns having delivered a success whose
    payload is the method name followed by " called": a text that is not
    empty and contains the method name. *)
Theorem HandleMethodCall_acknowledges name args fr :
  In name recognized_names ->
  HandleMethodCall (mkMethodCall name args) fr =
    (Returned tt, replied_once fr (ReplySuccess (EvString (name +:+ " called")))) /\
  name +:+ " called" <> EmptyString /\
  contains name (name +:+ " called").
Proof.
  intros H. split; [by apply HandleMethodCall_recognized |]. split.
  - apply recognized_names_spec in H.
    destruct H as [-> | [-> | [-> | ->]]]; discriminate.
  - exists EmptyString, " called". reflexivity.
Qed.

Lemma HandleMethodCall_acknowledges_witness :
  In "startScan" recognized_names /\
  HandleMethodCall (mkMethodCall "startScan" (Some (EvList [EvInt32 30%Z])))
                   initial_frame =
    (Returned tt,
     replied_once initial_frame (ReplySuccess (EvString "startScan called"))).
Proof.
  assert (H : In "startScan" recognized_names) by (simpl; tauto).
  split; [exact H |].
  exact (proj1 (HandleMethodCall_acknowledges
                  "startScan" (Some (EvList [EvInt32 30%Z])) initial_frame H)).
Defined.

(** C2. For a method name outside the recognized set -- the empty name, a
    name in another letter case, a name with extra white space -- and
    whatever the arguments, [HandleMethodCall] returns, without a fault,
    having delivered the not-implemented marker and no success. *)
Theorem HandleMethodCall_not_implemented name args fr :
  ~ In name recognized_names ->
  HandleMethodCall (mkMethodCall name args) fr =
    (Returned tt, replied_once fr ReplyNotImplemented) /\
  (forall f, fst (HandleMethodCall (mkMethodCall name args) fr) <> Failed f) /\
  (forall v, ~ In (ReplySuccess v)
                  (drop (length (result_sink fr))
                        (result_sink (snd (HandleMethodCall (mkMethodCall name args) fr))))).
Proof.
  intros H. rewrite (HandleMethodCall_unrecognized name args fr H).
  split; [reflexivity |]. split.
  - intros f; discriminate.
  - intros v. simpl. rewrite drop_app_length. simpl.
    intros [? | []]; discriminate.
Qed.

Lemma HandleMethodCall_not_implemented_witness :
  ~ In "StartScan" recognized_names /\
  HandleMethodCall (mkMethodCall "StartScan" None) initial_frame =
    (Returned tt, replied_once initial_frame ReplyNotImplemented).
Proof.
  assert (H : ~ In "StartScan" recognized_names).
  { rewrite recognized_names_spec. intuition discriminate. }
  split; [exact H |].
  exact (proj1 (HandleMethodCall_not_implemented "StartScan" None initial_frame H)).
Defined.

(** C3. [HandleMethodCall] is total: on every method call and in every
    frame it returns, without a fault, and by the time it returns exactly
    one reply has been added to the result object. *)
Theorem HandleMethodCall_replies_exactly_once call fr :
  exists reply,
    HandleMethodCall call fr = (Returned tt, replied_once fr reply) /\
    result_sink (snd (HandleMethodCall call fr)) = (result_sink fr ++ [reply])%list /\
    length (result_sink (snd (HandleMethodCall call fr))) =
      S (length (result_sink fr)).
Proof.
  destruct call as [name args].
  destruct (recognized_dec name) as [H | H].
  - exists (ReplySuccess (EvString (name +:+ " called"))).
    rewrite (HandleMethodCall_recognized name args fr H). simpl.
    rewrite length_app. simpl. split_and!; [done | done | lia].
  - exists ReplyNotImplemented.
    rewrite (HandleMethodCall_unrecognized name args fr H). simpl.
    rewrite length_app. simpl. split_and!; [done | done | lia].
Qed.

(** C4. The outcome of [HandleMethodCall] depends on the method name only:
    two calls with the same name and any two argument values, absent
    included, give the same result in the same frame. *)
Theorem HandleMethodCall_ignores_arguments name args args' fr :
  HandleMethodCall (mkMethodCall name args) fr =
  HandleMethodCall (mkMethodCall name args') fr.
Proof.
  destruct (recognized_dec name) as [H | H].
  - by rewrite !(HandleMethodCall_recognized name _ fr H).
  - by rewrite !(HandleMethodCall_unrecognized name _ fr H).
Qed.

(** C5. The one reply of [HandleMethodCall] is a success or the
    not-implemented marker, never an error, and it is the not-implemented
    marker exactly when the method name is outside the recognized set. *)
Theorem HandleMethodCall_reply_shapes call fr :
  exists reply,
    HandleMethodCall call fr = (Returned tt, replied_once fr reply) /\
    (is_success reply = true \/ reply = ReplyNotImplemented) /\
    is_error reply = false /\
    (reply = ReplyNotImplemented <-> ~ In (method_name call) recognized_names).
Proof.
  destruct call as [name args].
  destruct (recognized_dec name) as [H | H].
  - exists (ReplySuccess (EvString (name +:+ " called"))).
    rewrite (HandleMethodCall_recognized name args fr H).
    split_and!; [done | by left | done |].
    split; [discriminate | intros H'; by destruct H'].
  - exists ReplyNotImplemented.
    rewrite (HandleMethodCall_unrecognized name args fr H).
    split_and!; [done | by right | done |].
    split; [intros _; exact H | done].
Qed.

End Router.

(** ** The if/else chain against the table *)

Section Table.

Import TableDispatch.

Lemma classify_chain (name : string) :
  classify name =
  if String.eqb name "startScan" then StartScan
  else if String.eqb name "stopScan" then StopScan
  else if String.eqb name "connect" then Connect
  else if String.eqb name "disconnect" then Disconnect
  else Unknown.
Proof.
  unfold classify, method_table.
  destruct (String.eqb_spec name "startScan") as [-> | ?]; [reflexivity |].
  destruct (String.eqb_spec name "stopScan") as [-> | ?]; [reflexivity |].
  destruct (String.eqb_spec name "connect") as [-> | ?]; [reflexivity |].
  destruct (String.eqb_spec name "disconnect") as [-> | ?]; [reflexivity |].
  cbn [list_to_map foldr uncurry fst snd].
  rewrite !lookup_insert_ne by congruence.
  by rewrite lookup_empty.
Qed.

Lemma dispatch_chain (call : MethodCall) (fr : Frame) :
  HandleMethodCall call fr = dispatch call fr.
Proof.
  unfold dispatch, HandleMethodCall. rewrite classify_chain.
  destruct (String.eqb (method_name call) "startScan"); [reflexivity |].
  destruct (String.eqb (method_name call) "stopScan"); [reflexivity |].
  destruct (String.eqb (method_name call) "connect"); [reflexivity |].
  destruct (String.eqb (method_name call) "disconnect"); reflexivity.
Qed.

(** The five handlers tell themselves apart on every frame. *)
Lemma handler_of_inj (tag tag' : MethodTag) (fr : Frame) :
  handler_of tag fr = handler_of tag' fr -> tag = tag'.
Proof.
  destruct tag, tag'; try reflexivity;
    unfold handler_of, Success, NotImplemented, deliver;
    intros H; injection H as H; apply app_inv_head in H; discriminate.
Qed.

(** C8. The if/else chain of [HandleMethodCall] and the dispatch through a
    lookup table over StartScan, StopScan, Connect, Disconnect and Unknown,
    with Unknown as the total fallback, agree on every method call: they
    produce the same result, and the handler whose result the chain
    produces is the one the table selects. *)
Theorem HandleMethodCall_is_table_dispatch (call : MethodCall) (fr : Frame) :
  HandleMethodCall call fr = dispatch call fr /\
  (forall tag,
      HandleMethodCall call fr = handler_of tag fr <->
      tag = classify (method_name call)).
Proof.
  split; [apply dispatch_chain |].
  intros tag. rewrite dispatch_chain. unfold dispatch. split.
  - intros H. symmetry. by apply handler_of_inj in H.
  - by intros ->.
Qed.

End Table.

(** ** Handling invocations leaves the process as it was *)

Section Effects.

Implicit Types (h : Host) (handler : MethodCallHandler) (call : MethodCall).

Lemma Host_eta h :
  {| objects := objects h;
     registrars := registrars h;
     host_outbound := host_outbound h |} = h.
Proof. by destruct h. Qed.

(** The router has no state to change: the class has one value. *)
Lemma FlutterSplendidBlePlugin_unique (a b : FlutterSplendidBlePlugin) : a = b.
Proof. by destruct a, b. Qed.

Lemma HandleMethodCall_run call (fr : Frame) :
  exists reply, HandleMethodCall call fr = (Returned tt, replied_once fr reply).
Proof.
  destruct call as [name args].
  destruct (recognized_dec name) as [H | H]; eexists.
  - by apply HandleMethodCall_recognized.
  - by apply HandleMethodCall_unrecognized.
Qed.

Lemma method_call_handler_run handler call h :
  is_Some (objects h !! plugin_pointer handler) ->
  exists reply, method_call_handler handler call h = (Returned [reply], h).
Proof.
  intros [this Hthis]. unfold method_call_handler. rewrite Hthis.
  destruct (HandleMethodCall_run call
              {| this_plugin := this; result_sink := [];
                 outbound := host_outbound h |}) as [reply ->].
  exists reply. simpl. rewrite (insert_id _ _ _ Hthis).
  by rewrite Host_eta.
Qed.

(** C6. Handling invocations has no side effect: [HandleMethodCall] leaves
    the plugin object and the record of outbound calls of its frame as
    they were, and after any sequence of invocations handled by a handler
    whose plugin is alive the process -- plugin objects, registrars and
    outbound calls -- is the one it started from, each invocation having
    been answered once. *)
Theorem handling_changes_nothing handler (calls : list MethodCall) h :
  is_Some (objects h !! plugin_pointer handler) ->
  (forall call (fr : Frame),
      this_plugin (snd (HandleMethodCall call fr)) = this_plugin fr /\
      outbound (snd (HandleMethodCall call fr)) = outbound fr) /\
  exists replies,
    handle_all handler calls h = (Returned replies, h) /\
    length replies = length calls /\
    Forall (fun delivered => length delivered = 1) replies.
Proof.
  intros Hlive. split.
  { intros call fr. by destruct (HandleMethodCall_run call fr) as [reply ->]. }
  induction calls as [| call rest IH].
  - exists []. by split_and!.
  - destruct IH as (more & Hmore & Hlen & Hall).
    destruct (method_call_handler_run handler call h Hlive) as [reply Hrun].
    exists ([reply] :: more). split_and!.
    + cbn [handle_all]. unfold eff_bind at 1. rewrite Hrun.
      unfold eff_bind. by rewrite Hmore.
    + simpl. by rewrite Hlen.
    + by constructor.
Qed.

Lemma handling_changes_nothing_witness :
  is_Some (objects serving_host !! plugin_pointer (bound_handler 0)) /\
  exists replies,
    handle_all (bound_handler 0)
               [mkMethodCall "connect" (Some (EvString "AA:BB"));
                mkMethodCall "readCharacteristic" None] serving_host =
      (Returned replies, serving_host) /\
    length replies = 2 /\
    Forall (fun delivered => length delivered = 1) replies.
Proof.
  assert (Hlive : is_Some (objects serving_host !! plugin_pointer (bound_handler 0))).
  { exists mkPlugin. reflexivity. }
  split; [exact Hlive |].
  exact (proj2 (handling_changes_nothing
                  (bound_handler 0)
                  [mkMethodCall "connect" (Some (EvString "AA:BB"));
                   mkMethodCall "readCharacteristic" None] serving_host Hlive)).
Defined.

End Effects.

(** ** Registration *)

Section Registration.

Implicit Types (h : Host) (registrar : nat) (reg : PluginRegistrarWindows).

Lemma fresh_address_unused h : objects h !! fresh (dom (objects h)) = None.
Proof. apply not_elem_of_dom, is_fresh. Qed.

Lemma RegisterWithRegistrar_run registrar reg h :
  registrars h !! registrar = Some reg ->
  RegisterWithRegistrar registrar h = (Returned tt, registered registrar reg h).
Proof.
  intros Hreg.
  unfold RegisterWithRegistrar, eff_bind, make_unique_MethodChannel,
    make_unique_FlutterSplendidBlePlugin, SetMethodCallHandler, AddPlugin.
  rewrite Hreg. cbn. rewrite Hreg. cbn.
  rewrite lookup_insert_eq. cbn.
  rewrite insert_insert_eq. reflexivity.
Qed.

Lemma RegisterWithRegistrar_null registrar h :
  registrars h !! registrar = None ->
  RegisterWithRegistrar registrar h = (Failed (BadPointer registrar), h).
Proof.
  intros Hreg.
  unfold RegisterWithRegistrar, eff_bind, make_unique_MethodChannel.
  by rewrite Hreg.
Qed.

Lemma resolve_declared h :
  resolve ["flutter_splendid_ble"; "FlutterSplendidBlePlugin";
           "RegisterWithRegistrar"] h =
  (Returned RegisterWithRegistrar, h).
Proof. reflexivity. Qed.

Lemma resolve_undeclared h :
  resolve ["flutter_splendid_ble_plugin"; "FlutterSplendidBlePlugin";
           "RegisterWithRegistrar"] h =
  (Failed (UnresolvedName ["flutter_splendid_ble_plugin";
                           "FlutterSplendidBlePlugin";
                           "RegisterWithRegistrar"]), h).
Proof. reflexivity. Qed.

Lemma CApi_run registrar h :
  FlutterSplendidBlePluginCApiRegisterWithRegistrar registrar h =
  (Returned tt,
   registered registrar (default empty_registrar (registrars h !! registrar)) h).
Proof.
  unfold FlutterSplendidBlePluginCApiRegisterWithRegistrar, eff_bind.
  rewrite resolve_declared. unfold GetRegistrar.
  destruct (registrars h !! registrar) as [reg |] eqn:Hreg.
  - by rewrite (RegisterWithRegistrar_run registrar reg h Hreg).
  - erewrite RegisterWithRegistrar_run by apply lookup_insert_eq.
    unfold registered; cbn. by rewrite insert_insert_eq.
Qed.

Lemma handlers_of_registered registrar reg h :
  handlers_of (registered registrar reg h) registrar =
  <["flutter_splendid_ble_plugin" := bound_handler (fresh (dom (objects h)))]>
    (messenger reg).
Proof. unfold handlers_of, registered; cbn. by rewrite lookup_insert_eq. Qed.

Lemma handlers_of_registered_ne registrar reg h (r : nat) :
  r <> registrar ->
  handlers_of (registered registrar reg h) r = handlers_of h r.
Proof.
  intros Hne. unfold handlers_of, registered; cbn.
  by rewrite lookup_insert_ne.
Qed.

Lemma owned_by_registered registrar reg h :
  owned_by (registered registrar reg h) registrar =
  {[fresh (dom (objects h))]} ∪ plugins reg.
Proof. unfold owned_by, registered; cbn. by rewrite lookup_insert_eq. Qed.

Lemma owned_by_registered_ne registrar reg h (r : nat) :
  r <> registrar ->
  owned_by (registered registrar reg h) r = owned_by h r.
Proof.
  intros Hne. unfold owned_by, registered; cbn.
  by rewrite lookup_insert_ne.
Qed.

(** One invocation of the registration function of
    flutter_splendid_ble_plugin_c_api.cpp constructs
    exactly one plugin object, at an address that was not in use, binds it
    as the handler of the channel "flutter_splendid_ble_plugin" on the
    registrar's messenger, and hands that one object over to the
    registrar, which owns it besides what it owned before; no other
    registrar gains a plugin, and the bound handler answers every
    invocation. *)
Theorem registration_constructs_binds_hands_over registrar h :
  exists plugin h',
    FlutterSplendidBlePluginCApiRegisterWithRegistrar registrar h =
      (Returned tt, h') /\
    objects h !! plugin = None /\
    objects h' = <[plugin := mkPlugin]> (objects h) /\
    size (objects h') = S (size (objects h)) /\
    handlers_of h' registrar !! "flutter_splendid_ble_plugin" =
      Some (bound_handler plugin) /\
    owned_by h' registrar = {[plugin]} ∪ owned_by h registrar /\
    (forall r, r <> registrar -> owned_by h' r = owned_by h r) /\
    (forall call, exists reply,
        method_call_handler (bound_handler plugin) call h' =
          (Returned [reply], h')).
Proof.
  exists (fresh (dom (objects h))),
    (registered registrar (default empty_registrar (registrars h !! registrar)) h).
  split_and!.
  - apply CApi_run.
  - apply fresh_address_unused.
  - reflexivity.
  - cbn. apply map_size_insert_None, fresh_address_unused.
  - rewrite handlers_of_registered. apply lookup_insert_eq.
  - by rewrite owned_by_registered.
  - intros r Hne. by apply owned_by_registered_ne.
  - intros call. apply method_call_handler_run. cbn.
    rewrite lookup_insert_eq. by eexists.
Qed.

(** C9. A registration sets, on the messenger of its registrar, the
    handler of the channel named "flutter_splendid_ble_plugin", decoded by
    the standard method codec; the handler of every other channel name,
    and every handler on another registrar, is what it was before. *)
Theorem RegisterWithRegistrar_channel registrar h :
  is_Some (registrars h !! registrar) ->
  exists plugin h',
    RegisterWithRegistrar registrar h = (Returned tt, h') /\
    handlers_of h' registrar =
      <["flutter_splendid_ble_plugin" :=
          {| handler_codec := StandardMethodCodec; plugin_pointer := plugin |}]>
        (handlers_of h registrar) /\
    (forall name, name <> "flutter_splendid_ble_plugin" ->
                  handlers_of h' registrar !! name = handlers_of h registrar !! name) /\
    (forall r, r <> registrar -> handlers_of h' r = handlers_of h r).
Proof.
  intros [reg Hreg].
  exists (fresh (dom (objects h))), (registered registrar reg h).
  assert (Hold : handlers_of h registrar = messenger reg).
  { unfold handlers_of. by rewrite Hreg. }
  split_and!.
  - by apply RegisterWithRegistrar_run.
  - by rewrite handlers_of_registered, Hold.
  - intros name Hne. rewrite handlers_of_registered, Hold.
    by rewrite lookup_insert_ne.
  - intros r Hne. by apply handlers_of_registered_ne.
Qed.

Lemma RegisterWithRegistrar_channel_witness :
  is_Some (registrars wrapped_host !! 7) /\
  exists plugin h',
    RegisterWithRegistrar 7 wrapped_host = (Returned tt, h') /\
    handlers_of h' 7 =
      <["flutter_splendid_ble_plugin" :=
          {| handler_codec := StandardMethodCodec; plugin_pointer := plugin |}]>
        (handlers_of wrapped_host 7).
Proof.
  assert (Hreg : is_Some (registrars wrapped_host !! 7)).
  { exists empty_registrar. reflexivity. }
  split; [exact Hreg |].
  destruct (RegisterWithRegistrar_channel 7 wrapped_host Hreg)
    as (plugin & h' & Hrun & Hset & _).
  exists plugin, h'. split; [exact Hrun | exact Hset].
Defined.

(** C10. The two entry points do not do the same: the one of
    flutter_splendid_ble_plugin.cpp names the class in a namespace that no
    source declares, so its call denotes nothing and the process is left
    as it was, while the one of flutter_splendid_ble_plugin_c_api.cpp
    resolves the registrar and registers. *)
Theorem entry_points_part registrar h :
  FlutterSplendidBlePluginRegisterWithRegistrar registrar h =
    (Failed (UnresolvedName ["flutter_splendid_ble_plugin";
                             "FlutterSplendidBlePlugin";
                             "RegisterWithRegistrar"]), h) /\
  FlutterSplendidBlePluginCApiRegisterWithRegistrar registrar h =
    (Returned tt,
     registered registrar (default empty_registrar (registrars h !! registrar)) h) /\
  FlutterSplendidBlePluginRegisterWithRegistrar registrar h <>
  FlutterSplendidBlePluginCApiRegisterWithRegistrar registrar h.
Proof.
  assert (Hcpp : FlutterSplendidBlePluginRegisterWithRegistrar registrar h =
                 (Failed (UnresolvedName ["flutter_splendid_ble_plugin";
                                          "FlutterSplendidBlePlugin";
                                          "RegisterWithRegistrar"]), h)).
  { unfold FlutterSplendidBlePluginRegisterWithRegistrar, eff_bind.
    by rewrite resolve_undeclared. }
  split_and!; [exact Hcpp | apply CApi_run |].
  rewrite Hcpp, CApi_run. discriminate.
Qed.


End Registration.

(** ** Runs of registrations and what they keep *)

Section Runs.

Implicit Types (h : Host) (registrar r : nat) (refs : list nat).

Lemma register_step_run registrar h :
  FlutterSplendidBlePluginCApiRegisterWithRegistrar registrar h =
  (Returned tt, register_step registrar h).
Proof. apply CApi_run. Qed.

Lemma register_all_run refs h :
  register_all refs h = (Returned tt, after_registrations refs h).
Proof.
  revert h. induction refs as [| registrar rest IH]; intros h; [reflexivity |].
  cbn [register_all after_registrations fold_left]. unfold eff_bind.
  rewrite register_step_run. apply IH.
Qed.

Lemma after_registrations_ind (P : Host -> Prop) :
  (forall registrar h, P h -> P (register_step registrar h)) ->
  forall refs h, P h -> P (after_registrations refs h).
Proof.
  intros Hstep refs. induction refs as [| registrar rest IH]; intros h Hh.
  - exact Hh.
  - apply IH, Hstep, Hh.
Qed.

Lemma handlers_of_step registrar h :
  handlers_of (register_step registrar h) registrar =
  <["flutter_splendid_ble_plugin" := bound_handler (fresh (dom (objects h)))]>
    (handlers_of h registrar).
Proof. apply handlers_of_registered. Qed.

Lemma handlers_of_step_ne registrar h r :
  r <> registrar -> handlers_of (register_step registrar h) r = handlers_of h r.
Proof. apply handlers_of_registered_ne. Qed.

Lemma owned_by_step registrar h :
  owned_by (register_step registrar h) registrar =
  {[fresh (dom (objects h))]} ∪ owned_by h registrar.
Proof. apply owned_by_registered. Qed.

Lemma owned_by_step_ne registrar h r :
  r <> registrar -> owned_by (register_step registrar h) r = owned_by h r.
Proof. apply owned_by_registered_ne. Qed.

Lemma objects_step registrar h :
  objects (register_step registrar h) =
  <[fresh (dom (objects h)) := mkPlugin]> (objects h).
Proof. reflexivity. Qed.

Lemma fresh_not_owned registrar h r :
  owned_alive h -> fresh (dom (objects h)) ∉ owned_by h r.
Proof.
  intros Halive Hin. apply Halive in Hin.
  rewrite fresh_address_unused in Hin. by destruct Hin.
Qed.

Lemma register_step_owned_alive registrar h :
  owned_alive h -> owned_alive (register_step registrar h).
Proof.
  intros Halive r plugin Hin. rewrite objects_step.
  destruct (decide (plugin = fresh (dom (objects h)))) as [-> | Hp].
  - rewrite lookup_insert_eq. by eexists.
  - rewrite lookup_insert_ne by done.
    destruct (decide (r = registrar)) as [-> | Hne].
    + rewrite owned_by_step in Hin. apply (Halive registrar).
      apply elem_of_union in Hin as [Hin | Hin]; [| exact Hin].
      by apply elem_of_singleton in Hin.
    + rewrite owned_by_step_ne in Hin by done. by apply (Halive r).
Qed.

Lemma register_step_consistent registrar h :
  consistent h -> consistent (register_step registrar h).
Proof.
  intros (Hown & Halive & Honce). split_and!.
  - intros r name handler Hlook.
    destruct (decide (r = registrar)) as [-> | Hne].
    + rewrite handlers_of_step in Hlook. rewrite owned_by_step.
      destruct (decide (name = "flutter_splendid_ble_plugin")) as [-> | Hname].
      * rewrite lookup_insert_eq in Hlook. injection Hlook as <-.
        cbn. set_solver.
      * rewrite lookup_insert_ne in Hlook by done.
        apply Hown in Hlook. set_solver.
    + rewrite handlers_of_step_ne in Hlook by done.
      rewrite owned_by_step_ne by done. by eapply Hown.
  - by apply register_step_owned_alive.
  - intros r r' plugin Hin Hin'.
    destruct (decide (r = registrar)) as [-> | Hne];
      destruct (decide (r' = registrar)) as [-> | Hne']; [done | | |].
    + rewrite owned_by_step in Hin. rewrite owned_by_step_ne in Hin' by done.
      apply elem_of_union in Hin as [Hin | Hin].
      * apply elem_of_singleton in Hin. subst plugin.
        by apply (fresh_not_owned registrar) in Hin'.
      * by apply (Honce registrar r' plugin).
    + rewrite owned_by_step in Hin'. rewrite owned_by_step_ne in Hin by done.
      apply elem_of_union in Hin' as [Hin' | Hin'].
      * apply elem_of_singleton in Hin'. subst plugin.
        by apply (fresh_not_owned registrar) in Hin.
      * by apply (Honce r registrar plugin).
    + rewrite owned_by_step_ne in Hin by done.
      rewrite owned_by_step_ne in Hin' by done.
      by apply (Honce r r' plugin).
Qed.

Lemma initial_host_consistent : consistent initial_host.
Proof.
  split_and!.
  - intros r name handler H. unfold handlers_of, initial_host in H; cbn in H.
    rewrite lookup_empty in H. cbn in H. by rewrite lookup_empty in H.
  - intros r plugin H. unfold owned_by, initial_host in H; cbn in H.
    rewrite lookup_empty in H. cbn in H. set_solver.
  - intros r r' plugin H. unfold owned_by, initial_host in H; cbn in H.
    rewrite lookup_empty in H. cbn in H. set_solver.
Qed.

Lemma register_step_handlers registrar h r name (handler : MethodCallHandler) :
  handlers_of (register_step registrar h) r !! name = Some handler ->
  handlers_of h r !! name = Some handler \/
  (r = registrar /\ name = "flutter_splendid_ble_plugin" /\
   handler_codec handler = StandardMethodCodec).
Proof.
  intros Hlook. destruct (decide (r = registrar)) as [-> | Hne].
  - rewrite handlers_of_step in Hlook.
    destruct (decide (name = "flutter_splendid_ble_plugin")) as [-> | Hname].
    + rewrite lookup_insert_eq in Hlook. injection Hlook as <-. by right.
    + rewrite lookup_insert_ne in Hlook by done. by left.
  - rewrite handlers_of_step_ne in Hlook by done. by left.
Qed.

Lemma after_registrations_handlers refs h r name (handler : MethodCallHandler) :
  handlers_of (after_registrations refs h) r !! name = Some handler ->
  handlers_of h r !! name = Some handler \/
  (In r refs /\ name = "flutter_splendid_ble_plugin" /\
   handler_codec handler = StandardMethodCodec).
Proof.
  revert h. induction refs as [| registrar rest IH]; intros h Hlook.
  - by left.
  - cbn [after_registrations fold_left] in Hlook.
    apply IH in Hlook as [Hlook | (Hin & Hname & Hcodec)].
    + apply register_step_handlers in Hlook as [Hlook | (-> & Hname & Hcodec)].
      * by left.
      * right. split_and!; [by left | done | done].
    + right. split_and!; [by right | done | done].
Qed.

Lemma register_step_counts registrar h r :
  owned_alive h ->
  size (objects (register_step registrar h)) = S (size (objects h)) /\
  size (owned_by (register_step registrar h) r) =
    size (owned_by h r) + (if Nat.eq_dec registrar r then 1 else 0).
Proof.
  intros Halive. split.
  - rewrite objects_step. apply map_size_insert_None, fresh_address_unused.
  - destruct (Nat.eq_dec registrar r) as [<- | Hne].
    + rewrite owned_by_step, size_union, size_singleton; [lia |].
      apply disjoint_singleton_l. by apply (fresh_not_owned registrar).
    + rewrite owned_by_step_ne by done. lia.
Qed.

Lemma after_registrations_counts refs h r :
  owned_alive h ->
  size (objects (after_registrations refs h)) = size (objects h) + length refs /\
  size (owned_by (after_registrations refs h) r) =
    size (owned_by h r) + count_occ Nat.eq_dec refs r.
Proof.
  revert h. induction refs as [| registrar rest IH]; intros h Halive.
  - cbn. lia.
  - cbn [after_registrations fold_left length count_occ].
    destruct (IH (register_step registrar h)
                 (register_step_owned_alive registrar h Halive)) as [Hobj Hown].
    unfold after_registrations in Hobj, Hown. rewrite Hobj, Hown.
    destruct (register_step_counts registrar h r Halive) as [-> ->].
    destruct (Nat.eq_dec registrar r); lia.
Qed.

Lemma after_registrations_bound refs h r :
  is_Some (handlers_of (after_registrations refs h) r
             !! "flutter_splendid_ble_plugin") <->
  In r refs \/ is_Some (handlers_of h r !! "flutter_splendid_ble_plugin").
Proof.
  revert h. induction refs as [| registrar rest IH]; intros h.
  - cbn. tauto.
  - cbn [after_registrations fold_left In].
    unfold after_registrations in IH. rewrite IH.
    destruct (decide (r = registrar)) as [-> | Hne].
    + rewrite handlers_of_step, lookup_insert_eq.
      split; [intros _; by left; left | intros _; right; by eexists].
    + rewrite handlers_of_step_ne by done.
      split; [intros [? | ?]; tauto | intros [[? | ?] | ?]; [congruence | tauto | tauto]].
Qed.



Lemma acknowledgement_inj (name name' : string) :
  In name recognized_names -> In name' recognized_names ->
  name +:+ " called" = name' +:+ " called" -> name = name'.
Proof.
  rewrite !recognized_names_spec.
  intros [-> | [-> | [-> | ->]]] [-> | [-> | [-> | ->]]] H;
    first [reflexivity | cbv [String.append] in H; congruence].
Qed.

Lemma recognized_prefix_free (name suffix : string) :
  In name recognized_names -> suffix <> EmptyString ->
  ~ In (name +:+ suffix) recognized_names.
Proof.
  intros Hname Hsuffix Hin. rewrite recognized_names_spec in Hname, Hin.
  destruct Hname as [-> | [-> | [-> | ->]]];
    destruct Hin as [H | [H | [H | H]]]; cbv [String.append] in H; congruence.
Qed.

(** X1. Registrations keep ownership in order: from a process in which
    every handler captures a plugin owned by its registrar, every owned
    plugin is alive and no plugin has two owners, any run of registrations
    returns and leaves a process with the same three properties. *)
Theorem registrations_keep_ownership_consistent refs h :
  consistent h ->
  exists h', register_all refs h = (Returned tt, h') /\ consistent h'.
Proof.
  intros Hh. exists (after_registrations refs h).
  split; [apply register_all_run |].
  apply after_registrations_ind; [apply register_step_consistent | exact Hh].
Qed.

Lemma registrations_keep_ownership_consistent_witness :
  consistent initial_host /\
  exists h', register_all [7; 3; 7] initial_host = (Returned tt, h') /\
             consistent h'.
Proof.
  split; [exact initial_host_consistent |].
  exact (registrations_keep_ownership_consistent
           [7; 3; 7] initial_host initial_host_consistent).
Defined.

(** X2. Each registration constructs one plugin and gives it to the
    registrar it was made on: after a run of registrations the process
    holds as many more plugin objects as there were registrations, and each
    registrar owns as many more plugins as registrations named it. *)
Theorem registrations_count refs h :
  owned_alive h ->
  exists h',
    register_all refs h = (Returned tt, h') /\
    size (objects h') = size (objects h) + length refs /\
    forall r, size (owned_by h' r) =
              size (owned_by h r) + count_occ Nat.eq_dec refs r.
Proof.
  intros Hh. exists (after_registrations refs h).
  split; [apply register_all_run |]. split.
  - by apply (after_registrations_counts refs h 0).
  - intros r. by apply after_registrations_counts.
Qed.

Lemma registrations_count_witness :
  owned_alive initial_host /\
  exists h',
    register_all [7; 3; 7] initial_host = (Returned tt, h') /\
    size (objects h') = 3 /\
    forall r, size (owned_by h' r) =
              size (owned_by initial_host r) + count_occ Nat.eq_dec [7; 3; 7] r.
Proof.
  split; [exact (proj1 (proj2 initial_host_consistent)) |].
  exact (registrations_count [7; 3; 7] initial_host
           (proj1 (proj2 initial_host_consistent))).
Defined.

(** X3. Over any run of registrations the plugin sets handlers on no channel
    but "flutter_splendid_ble_plugin", with no codec but the standard one and
    on no registrar the run does not name: every handler found afterwards
    was already set, under the same name on the same registrar, before the
    run, or is a handler of that channel, with that codec, on a registrar
    named in the run. A registrar has a handler on that channel afterwards
    exactly when it had one before or a registration of the run named it. *)
Theorem registrations_bind_only_plugin_channel refs h :
  exists h',
    register_all refs h = (Returned tt, h') /\
    (forall r name handler,
        handlers_of h' r !! name = Some handler ->
        handlers_of h r !! name = Some handler \/
        (In r refs /\ name = "flutter_splendid_ble_plugin" /\
         handler_codec handler = StandardMethodCodec)) /\
    forall r,
      is_Some (handlers_of h' r !! "flutter_splendid_ble_plugin") <->
      In r refs \/ is_Some (handlers_of h r !! "flutter_splendid_ble_plugin").
Proof.
  exists (after_registrations refs h).
  split; [apply register_all_run |]. split.
  - intros r name handler. apply after_registrations_handlers.
  - intros r. apply after_registrations_bound.
Qed.



(** X5. Registering twice on the same registrar constructs two distinct
    plugins, both new and both owned by the registrar afterwards; the
    channel's handler is then the one capturing the second plugin. The first
    plugin is still alive, and when the process was consistent before, no
    handler on any messenger captures it. *)
Theorem second_registration_rebinds registrar h :
  exists first second h',
    register_all [registrar; registrar] h = (Returned tt, h') /\
    first <> second /\
    objects h !! first = None /\
    objects h !! second = None /\
    objects h' = <[second := mkPlugin]> (<[first := mkPlugin]> (objects h)) /\
    handlers_of h' registrar !! "flutter_splendid_ble_plugin" =
      Some (bound_handler second) /\
    owned_by h' registrar = {[second]} ∪ ({[first]} ∪ owned_by h registrar) /\
    is_Some (objects h' !! first) /\
    (consistent h ->
     forall r name handler,
       handlers_of h' r !! name = Some handler ->
       plugin_pointer handler <> first).
Proof.
  set (h1 := register_step registrar h).
  assert (Hobj : objects h1 =
                 <[fresh (dom (objects h)) := mkPlugin]> (objects h))
    by reflexivity.
  pose proof (fresh_address_unused h1) as Hsecond.
  assert (Hne : fresh (dom (objects h)) <> fresh (dom (objects h1))).
  { intros Heq. rewrite <- Heq, Hobj, lookup_insert_eq in Hsecond.
    discriminate. }
  exists (fresh (dom (objects h))), (fresh (dom (objects h1))),
    (after_registrations [registrar; registrar] h).
  split_and!.
  - apply register_all_run.
  - exact Hne.
  - apply fresh_address_unused.
  - remember (fresh (dom (objects h1))) as second eqn:Hs. clear Hs Hne.
    rewrite Hobj in Hsecond. apply lookup_insert_None in Hsecond. tauto.
  - reflexivity.
  - cbn [after_registrations fold_left]. fold h1.
    rewrite handlers_of_step. apply lookup_insert_eq.
  - cbn [after_registrations fold_left]. fold h1.
    rewrite owned_by_step. unfold h1. by rewrite owned_by_step.
  - cbn [after_registrations fold_left]. fold h1.
    rewrite objects_step, lookup_insert_ne by (fold h1; congruence).
    rewrite Hobj, lookup_insert_eq. by eexists.
  - intros (Hown & Halive & _) r name handler Hlook Hcaptured.
    cbn [after_registrations fold_left] in Hlook. fold h1 in Hlook.
    assert (Hold : handlers_of h r !! name = Some handler -> False).
    { intros Hin. apply Hown, Halive in Hin.
      rewrite Hcaptured, fresh_address_unused in Hin. by destruct Hin. }
    destruct (decide (r = registrar)) as [-> | Hr].
    + rewrite handlers_of_step in Hlook.
      destruct (decide (name = "flutter_splendid_ble_plugin")) as [-> | Hname].
      * rewrite lookup_insert_eq in Hlook. injection Hlook as <-.
        cbn in Hcaptured. congruence.
      * rewrite lookup_insert_ne in Hlook by done. unfold h1 in Hlook.
        rewrite handlers_of_step, lookup_insert_ne in Hlook by done.
        exact (Hold Hlook).
    + rewrite handlers_of_step_ne in Hlook by done. unfold h1 in Hlook.
      rewrite handlers_of_step_ne in Hlook by done.
      exact (Hold Hlook).
Qed.

Lemma second_registration_rebinds_witness :
  consistent initial_host /\
  exists first second h',
    register_all [7; 7] initial_host = (Returned tt, h') /\
    first <> second /\
    handlers_of h' 7 !! "flutter_splendid_ble_plugin" =
      Some (bound_handler second) /\
    is_Some (objects h' !! first) /\
    forall r name handler,
      handlers_of h' r !! name = Some handler ->
      plugin_pointer handler <> first.
Proof.
  split; [exact initial_host_consistent |].
  destruct (second_registration_rebinds 7 initial_host)
    as (first & second & h' & Hrun & Hne & _ & _ & _ & Hbound & _ & Hlive & Hfree).
  exists first, second, h'.
  split_and!; [exact Hrun | exact Hne | exact Hbound | exact Hlive |].
  exact (Hfree initial_host_consistent).
Defined.

(** X6. The acknowledgement tells the method: if a call with a recognized
    name and any other call get the same result from [HandleMethodCall] in
    the same frame, whatever their arguments, they name the same method. *)
Theorem acknowledgement_identifies_method
        (name name' : string) (args args' : option EncodableValue) (fr : Frame) :
  In name recognized_names ->
  HandleMethodCall (mkMethodCall name args) fr =
  HandleMethodCall (mkMethodCall name' args') fr ->
  name = name'.
Proof.
  intros Hname Heq.
  rewrite (HandleMethodCall_recognized name args fr Hname) in Heq.
  destruct (recognized_dec name') as [Hname' | Hname'].
  - rewrite (HandleMethodCall_recognized name' args' fr Hname') in Heq.
    injection Heq as Heq. apply app_inv_head in Heq.
    apply acknowledgement_inj; [done | done | congruence].
  - rewrite (HandleMethodCall_unrecognized name' args' fr Hname') in Heq.
    injection Heq as Heq. apply app_inv_head in Heq. discriminate.
Qed.

Lemma acknowledgement_identifies_method_witness :
  In "connect" recognized_names /\
  HandleMethodCall (mkMethodCall "connect" (Some (EvString "AA:BB"))) initial_frame =
  HandleMethodCall (mkMethodCall "connect" None) initial_frame /\
  "connect" = "connect".
Proof.
  assert (Hname : In "connect" recognized_names) by (simpl; tauto).
  assert (Heq : HandleMethodCall (mkMethodCall "connect" (Some (EvString "AA:BB")))
                                 initial_frame =
                HandleMethodCall (mkMethodCall "connect" None) initial_frame)
    by reflexivity.
  split; [exact Hname |]. split; [exact Heq |].
  exact (acknowledgement_identifies_method
           "connect" "connect" (Some (EvString "AA:BB")) None initial_frame
           Hname Heq).
Defined.

(** X7. Matching is on the whole name: a recognized name followed by one or
    more further characters, white space included, is answered with the
    not-implemented marker. *)
Theorem trailing_characters_unrecognized
        (name suffix : string) (args : option EncodableValue) (fr : Frame) :
  In name recognized_names ->
  suffix <> EmptyString ->
  HandleMethodCall (mkMethodCall (name +:+ suffix) args) fr =
  (Returned tt, replied_once fr ReplyNotImplemented).
Proof.
  intros Hname Hsuffix.
  apply HandleMethodCall_unrecognized. by apply recognized_prefix_free.
Qed.

Lemma trailing_characters_unrecognized_witness :
  In "stopScan" recognized_names /\
  " " <> EmptyString /\
  HandleMethodCall (mkMethodCall "stopScan " None) initial_frame =
  (Returned tt, replied_once initial_frame ReplyNotImplemented).
Proof.
  assert (Hname : In "stopScan" recognized_names) by (simpl; tauto).
  assert (Hsuffix : " " <> EmptyString) by discriminate.
  split; [exact Hname |]. split; [exact Hsuffix |].
  exact (trailing_characters_unrecognized "stopScan" " " None initial_frame
           Hname Hsuffix).
Defined.

Lemma register_step_keeps registrar h :
  objects h ⊆ objects (register_step registrar h) /\
  (forall r, owned_by h r ⊆ owned_by (register_step registrar h) r) /\
  (forall r name, name <> "flutter_splendid_ble_plugin" ->
                  handlers_of (register_step registrar h) r !! name =
                  handlers_of h r !! name) /\
  host_outbound (register_step registrar h) = host_outbound h.
Proof.
  split_and!.
  - rewrite objects_step. apply insert_subseteq, fresh_address_unused.
  - intros r. destruct (decide (r = registrar)) as [-> | Hne].
    + rewrite owned_by_step. apply union_subseteq_r.
    + by rewrite owned_by_step_ne.
  - intros r name Hname. destruct (decide (r = registrar)) as [-> | Hne].
    + rewrite handlers_of_step. by rewrite lookup_insert_ne.
    + by rewrite handlers_of_step_ne.
  - reflexivity.
Qed.

(** X8. Registrations only add: over any run of registrations every plugin
    object that was alive stays alive, every registrar keeps the plugins it
    owned, the handler of every channel other than
    "flutter_splendid_ble_plugin" is what it was, and no outbound call is
    made. *)
Theorem registrations_keep_existing refs h :
  exists h',
    register_all refs h = (Returned tt, h') /\
    objects h ⊆ objects h' /\
    (forall r, owned_by h r ⊆ owned_by h' r) /\
    (forall r name, name <> "flutter_splendid_ble_plugin" ->
                    handlers_of h' r !! name = handlers_of h r !! name) /\
    host_outbound h' = host_outbound h.
Proof.
  exists (after_registrations refs h).
  split; [apply register_all_run |].
  revert h. induction refs as [| registrar rest IH]; intros h.
  - by split_and!.
  - cbn [after_registrations fold_left].
    destruct (IH (register_step registrar h)) as (Hobj & Hown & Hother & Hout).
    destruct (register_step_keeps registrar h) as (Hobj1 & Hown1 & Hother1 & Hout1).
    unfold after_registrations in Hobj, Hown, Hother, Hout. split_and!.
    + by etrans.
    + intros r. etrans; [apply Hown1 | apply Hown].
    + intros r name Hname. by rewrite Hother, Hother1.
    + by rewrite Hout, Hout1.
Qed.

End Runs.
